(** * color-region-analyzer: the uploader front end and the region geometry

    The repository is one React component, [ImageProcessor]
    (frontend/app/page.tsx).  It keeps six [useState] cells and one ref to a
    file input, starts a [setInterval] timer per accepted file, and runs the
    asynchronous [startProcessing] once the simulated upload is complete.

    The component is embedded as pure functions over an explicit [World]:
    every handler and every timer callback is a function [World -> World]
    that applies the setters in the order the source calls them.  JavaScript
    runs each of them to completion, so an event of the page is one [step].
    Timers that are still pending are part of the [World], since the source
    never cancels them except in the callback that finishes an upload.

    The measuring engine the component stands in for is not implemented in
    the repository; module [Geometry] models its measurement from the
    design text. *)

From Stdlib Require Import ZArith List String Ascii Bool Lia DecimalString.
Import ListNotations.

#[local] Open Scope Z_scope.

(** ** Region geometry *)

Module Geometry.

(** Modelled from the spec: the data model of section 3, which the
    repository does not implement.  A pixel's category; the spec's third
    value, written None there, is [Neither] (its name in section 2). *)
Inductive Category : Set := Red | Blue | Neither.

(** Modelled from the spec: a grid cell by column and row, origin top-left
    (section 3).  Coordinates are integers so that the four neighbours of a
    cell on the grid's edge are cells too: they lie outside the grid and
    belong to no region. *)
Definition Cell : Set := (Z * Z)%type.

(** Modelled from the spec: a Region is a category and its member
    coordinates (section 3). *)
Record Region : Set := mkRegion {
  category : Category;
  members : list Cell
}.

Definition cell_eqb (a b : Cell) : bool :=
  (fst a =? fst b) && (snd a =? snd b).

(** Modelled from the spec: membership of a cell in a region's set of
    member coordinates. *)
Definition member (r : Region) (c : Cell) : bool :=
  existsb (cell_eqb c) (members r).

(** Modelled from the spec: the four edge-neighbours of a cell (4-connected
    adjacency, section 4.2). *)
Definition neighbours4 (c : Cell) : list Cell :=
  let (x, y) := c in [(x - 1, y); (x + 1, y); (x, y - 1); (x, y + 1)].

(** Modelled from the spec: the count of the cell's four edge-neighbours
    that are not members of the region (section 4.3). *)
Definition exposed (r : Region) (c : Cell) : Z :=
  Z.of_nat (List.length (filter (fun n => negb (member r n)) (neighbours4 c))).

Fixpoint zsum (l : list Z) : Z :=
  match l with
  | [] => 0
  | a :: l' => a + zsum l'
  end.

(** Modelled from the spec: GeometryMeasurer (section 4.3), absent from
    the repository.  Area is the number of member cells. *)
Definition area (r : Region) : Z := Z.of_nat (List.length (members r)).

(** Modelled from the spec: perimeter is the sum over all member cells of
    their exposed edges (section 4.3). *)
Definition perimeter (r : Region) : Z := zsum (map (exposed r) (members r)).

(** Modelled from the spec: the contract of section 4.3,
    measure(region) -> (area, perimeter), with no error path. *)
Definition measure (r : Region) : Z * Z := (area r, perimeter r).

(** Modelled from the spec: a cell of a grid of [width] columns and
    [height] rows (section 3, PixelBuffer). *)
Definition in_grid (width height : Z) (c : Cell) : bool :=
  (0 <=? fst c) && (fst c <? width) && (0 <=? snd c) && (snd c <? height).

(** Modelled from the spec: the exposed edges with the grid named, after
    the sentence that a neighbour outside the grid boundary counts as a
    non-member (section 4.3). *)
Definition exposed_in (width height : Z) (r : Region) (c : Cell) : Z :=
  Z.of_nat (List.length
              (filter (fun n => negb (in_grid width height n)
                                || negb (member r n))
                      (neighbours4 c))).

(** Modelled from the spec: the perimeter with the grid named. *)
Definition perimeter_in (width height : Z) (r : Region) : Z :=
  zsum (map (exposed_in width height r) (members r)).

(** The solid rectangle of [n] columns and [m] rows whose top-left cell is
    [(x0, y0)], its cells in row-major order. *)
Definition row_cells (x0 : Z) (n : nat) (y : Z) : list Cell :=
  map (fun i => (x0 + Z.of_nat i, y)) (seq 0 n).

Definition rect_cells (x0 y0 : Z) (n m : nat) : list Cell :=
  flat_map (fun j => row_cells x0 n (y0 + Z.of_nat j)) (seq 0 m).

Definition rectangle (k : Category) (x0 y0 : Z) (n m : nat) : Region :=
  mkRegion k (rect_cells x0 y0 n m).

End Geometry.

(** ** The front end: frontend/app/page.tsx *)

Module Frontend.

Inductive Phase : Set := upload | processing | result.

Record ProcessingStep : Set := mkStep {
  label : string;
  duration : Z
}.

Record Results : Set := mkResults {
  redArea : Z;
  blueArea : Z;
  redPerimeter : Z;
  bluePerimeter : Z
}.

Definition processingSteps : list ProcessingStep :=
  [ mkStep "Segmenting image..." 1500;
    mkStep "Detecting red and blue regions..." 2000;
    mkStep "Calculating area and perimeter..." 1500;
    mkStep "Preparing result..." 1000 ].

(** An 8-bit RGB sample and an image as its rows of samples. *)
Definition Rgb : Set := (Z * Z * Z)%type.

(** The browser's [File].  The component reads [type] and [name] only;
    [image] is the content of the file, as the rows of pixels a decoder
    gives for it, and no handler looks at it. *)
Record File : Set := mkFile {
  name : string;
  type : string;
  image : list (list Rgb)
}.

(** The six [useState] cells of [ImageProcessor]. *)
Record State : Set := mkState {
  phase : Phase;
  uploadProgress : Z;
  currentStep : nat;
  selectedFile : option File;
  previewUrl : option string;
  results : option Results
}.

Definition TimerId : Set := nat.

(** The component together with the part of the browser it acts on. *)
Record World : Set := mkWorld {
  ui : State;
  (** [fileInputRef.current]: [None] while the input element is not
      mounted, otherwise its [value]. *)
  fileInput : option string;
  (** The [setInterval] timers of [simulateUpload] not yet cleared. *)
  intervals : list TimerId;
  (** The runs of [startProcessing] suspended at their [await]: the
      [setTimeout] timer each waits for and its loop counter [i]. *)
  awaiting : list (TimerId * nat);
  nextTimer : TimerId;
  (** The object URLs made by [URL.createObjectURL], newest first. *)
  objectUrls : list (string * File)
}.

(** *** The setters *)

Definition onUi (f : State -> State) (w : World) : World :=
  mkWorld (f (ui w)) (fileInput w) (intervals w) (awaiting w)
          (nextTimer w) (objectUrls w).

Definition setPhase (p : Phase) : World -> World :=
  onUi (fun s => mkState p (uploadProgress s) (currentStep s)
                         (selectedFile s) (previewUrl s) (results s)).

Definition setUploadProgress (n : Z) : World -> World :=
  onUi (fun s => mkState (phase s) n (currentStep s)
                         (selectedFile s) (previewUrl s) (results s)).

Definition setCurrentStep (i : nat) : World -> World :=
  onUi (fun s => mkState (phase s) (uploadProgress s) i
                         (selectedFile s) (previewUrl s) (results s)).

Definition setSelectedFile (f : option File) : World -> World :=
  onUi (fun s => mkState (phase s) (uploadProgress s) (currentStep s)
                         f (previewUrl s) (results s)).

Definition setPreviewUrl (u : option string) : World -> World :=
  onUi (fun s => mkState (phase s) (uploadProgress s) (currentStep s)
                         (selectedFile s) u (results s)).

Definition setResults (r : option Results) : World -> World :=
  onUi (fun s => mkState (phase s) (uploadProgress s) (currentStep s)
                         (selectedFile s) (previewUrl s) r).

(** *** The browser functions the component calls *)

Definition blobUrl (k : nat) : string :=
  ("blob:" ++ NilEmpty.string_of_uint (Nat.to_uint k))%string.

Definition createObjectURL (file : File) (w : World) : string * World :=
  let url := blobUrl (List.length (objectUrls w)) in
  (url, mkWorld (ui w) (fileInput w) (intervals w) (awaiting w)
                (nextTimer w) ((url, file) :: objectUrls w)).

Definition setInterval (w : World) : TimerId * World :=
  let t := nextTimer w in
  (t, mkWorld (ui w) (fileInput w) (t :: intervals w) (awaiting w)
              (S t) (objectUrls w)).

Definition clearInterval (t : TimerId) (w : World) : World :=
  mkWorld (ui w) (fileInput w)
          (filter (fun t' => negb (Nat.eqb t' t)) (intervals w))
          (awaiting w) (nextTimer w) (objectUrls w).

(** [await new Promise(resolve => setTimeout(resolve, d))] in the run
    whose loop counter is [i]: the run is parked on a fresh timer. *)
Definition awaitTimeout (d : Z) (i : nat) (w : World) : World :=
  let t := nextTimer w in
  mkWorld (ui w) (fileInput w) (intervals w) ((t, i) :: awaiting w)
          (S t) (objectUrls w).

Definition unpark (t : TimerId) (w : World) : World :=
  mkWorld (ui w) (fileInput w) (intervals w)
          (filter (fun p => negb (Nat.eqb (fst p) t)) (awaiting w))
          (nextTimer w) (objectUrls w).

Definition setInputValue (v : option string) (w : World) : World :=
  mkWorld (ui w) v (intervals w) (awaiting w) (nextTimer w) (objectUrls w).

(** *** The component's functions *)

Definition initialState : State := mkState upload 0 0 None None None.

Definition simulatedResults : Results := mkResults 5321 4872 610 580.

(** [file.type === "image/jpeg" || file.type === "image/png"] *)
Definition accepted (file : File) : bool :=
  (type file =? "image/jpeg")%string || (type file =? "image/png")%string.

(** [startProcessing] from the test of its [for] loop with counter [i],
    up to the next [await] or to its end; [i < processingSteps.length]
    holds exactly when [processingSteps[i]] exists. *)
Definition processingLoop (i : nat) (w : World) : World :=
  match nth_error processingSteps i with
  | Some st =>
      let w := setCurrentStep i w in
      awaitTimeout (duration st) i w
  | None =>
      let w := setResults (Some simulatedResults) w in
      setPhase result w
  end.

Definition startProcessing (w : World) : World :=
  let w := setPhase processing w in
  let w := setCurrentStep 0 w in
  processingLoop 0 w.

(** The [await] of the run parked on [t] with counter [i] returns:
    [i++] and the loop test. *)
Definition resumeProcessing (t : TimerId) (i : nat) (w : World) : World :=
  processingLoop (S i) (unpark t w).

(** The callback [simulateUpload] gives to [setInterval], for the timer
    [interval]: it passes the updater to [setUploadProgress].  React runs
    the updater once for each firing, as it does outside the development
    double call of StrictMode. *)
Definition intervalCallback (interval : TimerId) (w : World) : World :=
  let prev := uploadProgress (ui w) in
  if 100 <=? prev then
    let w := clearInterval interval w in
    let w := startProcessing w in
    setUploadProgress 100 w
  else setUploadProgress (prev + 10) w.

Definition simulateUpload (file : File) (w : World) : World :=
  let w := setPhase upload w in
  let w := setUploadProgress 0 w in
  snd (setInterval w).

(** [files0] is [event.target.files?.[0]], [None] when it is undefined. *)
Definition handleFileSelect (files0 : option File) (w : World) : World :=
  match files0 with
  | Some file =>
      if accepted file then
        let w := setSelectedFile (Some file) w in
        let (url, w) := createObjectURL file w in
        let w := setPreviewUrl (Some url) w in
        simulateUpload file w
      else w
  | None => w
  end.

(** [e.preventDefault()] acts on the event only, as does the whole of
    [handleDragOver]; [files0] is [e.dataTransfer.files[0]]. *)
Definition handleDrop (files0 : option File) (w : World) : World :=
  match files0 with
  | Some file =>
      if accepted file then
        let w := setSelectedFile (Some file) w in
        let (url, w) := createObjectURL file w in
        let w := setPreviewUrl (Some url) w in
        simulateUpload file w
      else w
  | None => w
  end.

Definition handleReset (w : World) : World :=
  let w := setPhase upload w in
  let w := setUploadProgress 0 w in
  let w := setCurrentStep 0 w in
  let w := setSelectedFile None w in
  let w := setPreviewUrl None w in
  let w := setResults None w in
  match fileInput w with
  | Some _ => setInputValue (Some EmptyString) w
  | None => w
  end.

(** *** What the component renders *)

(** The card's content.  Numbers are kept as numbers: [toLocaleString]
    only formats them.  [stepLabel] is [None] where
    [processingSteps[currentStep]] is undefined and the render throws. *)
Inductive View : Set :=
| UploadView (title : string) (progressBar : option Z)
| ProcessingView (preview : option string) (stepLabel : option string)
                 (stepNumber stepCount : nat)
| ResultView (preview : option string)
             (redAreaPx redPerimeterPx blueAreaPx bluePerimeterPx : Z)
| EmptyCard.

(** [previewUrl && ...]: a null or empty string shows no image. *)
Definition shownPreview (s : State) : option string :=
  match previewUrl s with
  | Some u => if (u =? EmptyString)%string then None else Some u
  | None => None
  end.

Definition render (s : State) : View :=
  match phase s with
  | upload =>
      UploadView
        (match selectedFile s with
         | Some f => name f
         | None => "Drop your image here"%string
         end)
        (if (0 <? uploadProgress s) && (uploadProgress s <? 100)
         then Some (uploadProgress s) else None)
  | processing =>
      ProcessingView (shownPreview s)
        (option_map label (nth_error processingSteps (currentStep s)))
        (currentStep s + 1) (List.length processingSteps)
  | result =>
      match results s with
      | Some r =>
          ResultView (shownPreview s) (redArea r) (redPerimeter r)
                     (blueArea r) (bluePerimeter r)
      | None => EmptyCard
      end
  end.

(** The file input is an element of the upload view only.  When React
    commits a render it keeps a mounted input, mounts a fresh one (empty
    value) when the upload view appears, and sets the ref to null when
    the view goes. *)
Definition commit (w : World) : World :=
  match phase (ui w) with
  | upload =>
      match fileInput w with
      | Some _ => w
      | None => setInputValue (Some EmptyString) w
      end
  | _ => setInputValue None w
  end.

(** *** The page as a transition system *)

Inductive Event : Set :=
| FileSelect (files0 : option File)  (* change event of the file input *)
| Drop (files0 : option File)        (* drop event on the drop zone *)
| Tick (t : TimerId)                 (* the interval timer [t] fires *)
| TimerDone (t : TimerId)            (* the timeout [t] resolves its promise *)
| ClickReset.                        (* click on the result view's button *)

(** The value the browser gives the input for a chosen file. *)
Definition fakepath (files0 : option File) : string :=
  match files0 with
  | Some f => ("C:\fakepath\" ++ name f)%string
  | None => EmptyString
  end.

(** One event.  [None]: the event cannot occur in [w], because the
    element or the timer that raises it is not there. *)
Definition step (e : Event) (w : World) : option World :=
  match e with
  | FileSelect files0 =>
      match fileInput w with
      | Some _ =>
          Some (commit (handleFileSelect files0
                          (setInputValue (Some (fakepath files0)) w)))
      | None => None
      end
  | Drop files0 =>
      match phase (ui w) with
      | upload => Some (commit (handleDrop files0 w))
      | _ => None
      end
  | Tick t =>
      if existsb (Nat.eqb t) (intervals w)
      then Some (commit (intervalCallback t w))
      else None
  | TimerDone t =>
      match find (fun p => Nat.eqb (fst p) t) (awaiting w) with
      | Some (_, i) => Some (commit (resumeProcessing t i w))
      | None => None
      end
  | ClickReset =>
      match render (ui w) with
      | ResultView _ _ _ _ _ => Some (commit (handleReset w))
      | _ => None
      end
  end.

Fixpoint run (es : list Event) (w : World) : option World :=
  match es with
  | [] => Some w
  | e :: es' =>
      match step e w with
      | Some w' => run es' w'
      | None => None
      end
  end.

(** The page as first rendered. *)
Definition init : World :=
  mkWorld initialState (Some EmptyString) [] [] 0%nat [].

(** *** Scenarios *)

(** One whole analysis of [file], started by a drop when the next timer
    number is [k]: the interval [k] fires eleven times (ten steps of 10,
    then the call of [startProcessing]) and the four timeouts of the
    processing steps resolve. *)
Definition session (k : TimerId) (file : File) : list Event :=
  Drop (Some file) :: repeat (Tick k) 11
    ++ [TimerDone (k + 1); TimerDone (k + 2); TimerDone (k + 3);
        TimerDone (k + 4)]%nat.

(** The report shown after one analysis of [file] on a fresh page. *)
Definition analysisReport (file : File) : option Results :=
  match run (session 0%nat file) init with
  | Some w => results (ui w)
  | None => None
  end.

(** Every pixel of the file's image is black. *)
Definition allBlack (file : File) : bool :=
  forallb (forallb (fun p : Rgb =>
                      let '(r, g, b) := p in
                      (r =? 0) && (g =? 0) && (b =? 0)))
          (image file).

Definition zeroReport : Results := mkResults 0 0 0 0.

(** The phase changes of the three-phase view model: none, upload to
    processing, processing to result, and back to upload on a reset. *)
Definition viewModelChange (p : Phase) (e : Event) (q : Phase) : bool :=
  match p, q with
  | upload, upload | processing, processing | result, result => true
  | upload, processing => true
  | processing, result => true
  | _, upload => match e with ClickReset => true | _ => false end
  | _, _ => false
  end.

(** A user who starts one upload at a time: no file is chosen or dropped
    while an interval timer of an earlier upload is still alive. *)
Definition oneAtATime (e : Event) (w : World) : bool :=
  match e with
  | FileSelect _ | Drop _ =>
      match intervals w with [] => true | _ :: _ => false end
  | _ => true
  end.

(** The phase changes along a run, each with the event that made it;
    the run stops at the first event that cannot occur. *)
Fixpoint phaseChanges (es : list Event) (w : World)
  : list (Phase * Event * Phase) :=
  match es with
  | [] => []
  | e :: es' =>
      match step e w with
      | Some w' => (phase (ui w), e, phase (ui w')) :: phaseChanges es' w'
      | None => []
      end
  end.

Fixpoint disciplined (es : list Event) (w : World) : bool :=
  match es with
  | [] => true
  | e :: es' =>
      oneAtATime e w
      && match step e w with
         | Some w' => disciplined es' w'
         | None => true
         end
  end.

(** *** Invariants *)

(** The report cell holds nothing or the fixed report, and holds the
    report whenever the phase is [result]. *)
Definition reportInv (w : World) : Prop :=
  (results (ui w) = None \/ results (ui w) = Some simulatedResults)
  /\ (phase (ui w) = result -> results (ui w) = Some simulatedResults).

(** The file input is mounted in the upload view only, at most one timer
    is pending, and it is the one of the phase: an interval during the
    upload, a timeout during the processing. *)
Definition oneTimer (w : World) : Prop :=
  (fileInput w <> None -> phase (ui w) = upload)
  /\ match phase (ui w) with
     | upload => awaiting w = [] /\ (List.length (intervals w) <= 1)%nat
     | processing => intervals w = [] /\ (List.length (awaiting w) <= 1)%nat
     | result => intervals w = [] /\ awaiting w = []
     end.

(** *** Further invariants *)

(** The progress is one of 0, 10, ..., 100, it is 100 while the phase is
    [processing], and the file input is mounted exactly in the upload
    view. *)
Definition progressInv (w : World) : Prop :=
  (exists k, (k <= 10)%nat /\ uploadProgress (ui w) = 10 * Z.of_nat k)
  /\ (phase (ui w) = processing -> uploadProgress (ui w) = 100)
  /\ (fileInput w <> None <-> phase (ui w) = upload).

(** The step shown by the processing view is one of [processingSteps]. *)
Definition stepInv (w : World) : Prop :=
  (currentStep (ui w) < List.length processingSteps)%nat.

(** The selected file and the preview URL are both null, or the file is of
    an accepted type and the URL is the non-empty object URL made for it. *)
Definition selectionInv (w : World) : Prop :=
  match selectedFile (ui w), previewUrl (ui w) with
  | None, None => True
  | Some f, Some u =>
      accepted f = true /\ In (u, f) (objectUrls w)
      /\ shownPreview (ui w) = Some u
  | _, _ => False
  end.

(** With one upload at a time a file is selected from the drop that
    starts the upload until the reset. *)
Definition analysedInv (w : World) : Prop :=
  oneTimer w
  /\ ((phase (ui w) = upload /\ intervals w = [])
      \/ selectedFile (ui w) <> None).


(** *** Sample files *)

Definition black_png : File :=
  mkFile "black.png" "image/png" [[(0, 0, 0); (0, 0, 0)]; [(0, 0, 0); (0, 0, 0)]].

Definition red_jpg : File :=
  mkFile "red.jpg" "image/jpeg" [[(255, 0, 0)]].

Definition notes_txt : File :=
  mkFile "notes.txt" "text/plain" [].

(** Two files dropped one after the other while the first upload is
    still in progress: both interval timers stay alive, each starts a run
    of [startProcessing], the first run ends, the user resets, and the
    second run is left parked on timer 9.  With the drops at 0 and 50 ms
    the intervals fire in turn from 100 ms on, the runs start at 600 and
    650 ms and end at 6600 and 6650 ms; the reset falls between the two
    ends. *)
Definition overlappingUploads : list Event :=
  [Drop (Some black_png); Drop (Some red_jpg)]
    ++ List.concat (repeat [Tick 0%nat; Tick 1%nat] 6)
    ++ map TimerDone [2; 3; 4; 5; 6; 7; 8]%nat
    ++ [ClickReset].

(** The overlapping uploads, then a third file dropped before the second
    run ends: that run's end shows the result while the interval 10 of the
    third upload is alive, and the interval fires ten times, up to the
    progress 100.  Reset and drop both fall between the ends of the two
    runs. *)
Definition staleInterval : list Event :=
  overlappingUploads
    ++ [Drop (Some black_png); TimerDone 9%nat]
    ++ repeat (Tick 10%nat) 10.

End Frontend.

(** ** Facts about the front end *)

Import Frontend.

Section Setters.

Variable w : World.

Lemma ui_commit : ui (commit w) = ui w.
Proof.
  unfold commit.
  destruct (phase (ui w)); [destruct (fileInput w) | | ]; reflexivity.
Qed.

Lemma ui_unpark (t : TimerId) : ui (unpark t w) = ui w.
Proof. reflexivity. Qed.

Lemma ui_clearInterval (t : TimerId) : ui (clearInterval t w) = ui w.
Proof. reflexivity. Qed.

(** The loop of [startProcessing] either parks the run again, leaving
    phase and results alone, or ends it with the fixed report. *)
Lemma processingLoop_ui (i : nat) :
  (phase (ui (processingLoop i w)) = phase (ui w)
   /\ results (ui (processingLoop i w)) = results (ui w))
  \/ (phase (ui (processingLoop i w)) = result
      /\ results (ui (processingLoop i w)) = Some simulatedResults).
Proof.
  unfold processingLoop.
  destruct (nth_error processingSteps i); [left | right]; split; reflexivity.
Qed.

Lemma startProcessing_ui :
  phase (ui (startProcessing w)) = processing
  /\ results (ui (startProcessing w)) = results (ui w).
Proof. split; reflexivity. Qed.

Lemma intervalCallback_ui (t : TimerId) :
  (phase (ui (intervalCallback t w)) = phase (ui w)
   \/ phase (ui (intervalCallback t w)) = processing)
  /\ results (ui (intervalCallback t w)) = results (ui w).
Proof.
  unfold intervalCallback.
  destruct (100 <=? uploadProgress (ui w)); split; auto.
Qed.

Lemma handleFileSelect_ui (files0 : option File) :
  (phase (ui (handleFileSelect files0 w)) = phase (ui w)
   \/ phase (ui (handleFileSelect files0 w)) = upload)
  /\ results (ui (handleFileSelect files0 w)) = results (ui w).
Proof.
  unfold handleFileSelect.
  destruct files0 as [file | ]; [destruct (accepted file) | ]; split; auto.
Qed.

Lemma handleDrop_ui (files0 : option File) :
  (phase (ui (handleDrop files0 w)) = phase (ui w)
   \/ phase (ui (handleDrop files0 w)) = upload)
  /\ results (ui (handleDrop files0 w)) = results (ui w).
Proof.
  unfold handleDrop.
  destruct files0 as [file | ]; [destruct (accepted file) | ]; split; auto.
Qed.

Lemma handleReset_ui : ui (handleReset w) = initialState.
Proof.
  unfold handleReset. cbn.
  destruct (fileInput w); reflexivity.
Qed.

End Setters.

Lemma reportInv_init : reportInv init.
Proof. split; [left; reflexivity | discriminate]. Qed.

Lemma reportInv_step (e : Event) (w w' : World) :
  step e w = Some w' -> reportInv w -> reportInv w'.
Proof.
  unfold reportInv. intros Hstep [Hres Hph].
  destruct e as [files0 | files0 | t | t | ]; cbn in Hstep.
  - destruct (fileInput w); [ | discriminate].
    injection Hstep as <-. rewrite ui_commit.
    destruct (handleFileSelect_ui (setInputValue (Some (fakepath files0)) w) files0)
      as [[Hp | Hp] Hr]; rewrite Hr, Hp; cbn; split; auto; discriminate.
  - destruct (phase (ui w)) eqn:Hw; try discriminate.
    injection Hstep as <-. rewrite ui_commit.
    destruct (handleDrop_ui w files0) as [[Hp | Hp] Hr];
      rewrite Hr, Hp; try rewrite Hw; split; auto; discriminate.
  - destruct (existsb (Nat.eqb t) (intervals w)); [ | discriminate].
    injection Hstep as <-. rewrite ui_commit.
    destruct (intervalCallback_ui w t) as [[Hp | Hp] Hr];
      rewrite Hr, Hp; split; auto; discriminate.
  - destruct (find (fun p => Nat.eqb (fst p) t) (awaiting w)) as [[t0 i] | ];
      [ | discriminate].
    injection Hstep as <-. rewrite ui_commit. unfold resumeProcessing.
    destruct (processingLoop_ui (unpark t w) (S i)) as [[Hp Hr] | [Hp Hr]];
      rewrite Hr, Hp; rewrite ?ui_unpark; split; auto.
  - destruct (render (ui w)); try discriminate.
    injection Hstep as <-. rewrite ui_commit, handleReset_ui.
    split; [left; reflexivity | discriminate].
Qed.

Lemma reportInv_run (es : list Event) :
  forall w w', run es w = Some w' -> reportInv w -> reportInv w'.
Proof.
  induction es as [ | e es IH]; intros w w' Hrun Hinv; cbn in Hrun.
  - injection Hrun as <-. exact Hinv.
  - destruct (step e w) as [w1 | ] eqn:Hstep; [ | discriminate].
    apply (IH w1 w' Hrun). exact (reportInv_step e w w1 Hstep Hinv).
Qed.

Lemma reportInv_reachable (es : list Event) (w : World) :
  run es init = Some w -> reportInv w.
Proof. intro Hrun. exact (reportInv_run es init w Hrun reportInv_init). Qed.


Lemma run_cons (e : Event) (es : list Event) (w : World) :
  run (e :: es) w =
  match step e w with Some w' => run es w' | None => None end.
Proof. reflexivity. Qed.

(** A drop of an accepted file in the upload view runs the whole handler. *)
Lemma step_drop_accepted (file : File) (w : World) :
  accepted file = true -> phase (ui w) = upload ->
  step (Drop (Some file)) w =
  Some (commit (simulateUpload file
          (setPreviewUrl (Some (fst (createObjectURL file (setSelectedFile (Some file) w))))
             (snd (createObjectURL file (setSelectedFile (Some file) w)))))).
Proof.
  intros Hacc Hph. unfold step, handleDrop. rewrite Hph, Hacc. reflexivity.
Qed.

(** One analysis of an accepted file on a fresh page ends in the result
    phase with the fixed report. *)
Lemma session_outcome (file : File) :
  accepted file = true ->
  exists w, run (session 0%nat file) init = Some w
            /\ phase (ui w) = result
            /\ results (ui w) = Some simulatedResults
            /\ selectedFile (ui w) = Some file.
Proof.
  intro Hacc. unfold session.
  rewrite run_cons, (step_drop_accepted file init Hacc eq_refl).
  vm_compute. eexists. repeat split.
Qed.

Lemma analysisReport_accepted (file : File) :
  accepted file = true -> analysisReport file = Some simulatedResults.
Proof.
  intro Hacc. unfold analysisReport.
  destruct (session_outcome file Hacc) as [w [Hrun [_ [Hres _]]]].
  rewrite Hrun. exact Hres.
Qed.

(** *** The claims about the report *)

(** C1. Determinism: whatever the page went through, any two reports the
    component ever holds are equal, field for field; in particular the same
    file analysed twice shows the same numbers. *)
Theorem analysis_deterministic
  (es1 es2 : list Event) (w1 w2 : World) (r1 r2 : Results) :
  run es1 init = Some w1 -> run es2 init = Some w2 ->
  results (ui w1) = Some r1 -> results (ui w2) = Some r2 ->
  r1 = r2.
Proof.
  intros Hrun1 Hrun2 Hr1 Hr2.
  destruct (reportInv_reachable es1 w1 Hrun1) as [[H1 | H1] _];
    destruct (reportInv_reachable es2 w2 Hrun2) as [[H2 | H2] _];
    congruence.
Qed.

(** The same image analysed, then analysed again after a reset. *)
Lemma analysis_deterministic_witness :
  exists w1 w2 r1 r2,
    run (session 0%nat black_png) init = Some w1
    /\ run (session 0%nat black_png ++ ClickReset :: session 5%nat black_png) init
       = Some w2
    /\ results (ui w1) = Some r1 /\ results (ui w2) = Some r2 /\ r1 = r2.
Proof.
  do 4 eexists.
  split; [vm_compute; reflexivity | ].
  split; [vm_compute; reflexivity | ].
  split; [vm_compute; reflexivity | ].
  split; [vm_compute; reflexivity | ].
  eapply (analysis_deterministic
            (session 0%nat black_png)
            (session 0%nat black_png ++ ClickReset :: session 5%nat black_png));
    vm_compute; reflexivity.
Defined.

(** C2, as stated, fails: the page shows non-zero totals for an all-black
    image. *)
Lemma black_image_report_not_zero :
  allBlack black_png = true
  /\ accepted black_png = true
  /\ analysisReport black_png = Some (mkResults 5321 4872 610 580)
  /\ analysisReport black_png <> Some zeroReport.
Proof.
  repeat split; try (vm_compute; reflexivity).
  vm_compute. discriminate.
Qed.

(** C2, amended. For an all-black image of an accepted type the page
    reports the same fixed totals as for any other image: red area 5321,
    blue area 4872, red perimeter 610, blue perimeter 580. *)
Theorem black_image_fixed_report (file : File) :
  accepted file = true -> allBlack file = true ->
  analysisReport file = Some (mkResults 5321 4872 610 580).
Proof.
  intros Hacc _. exact (analysisReport_accepted file Hacc).
Qed.

Lemma black_image_fixed_report_witness :
  accepted black_png = true /\ allBlack black_png = true
  /\ analysisReport black_png = Some (mkResults 5321 4872 610 580).
Proof.
  split; [vm_compute; reflexivity | split; [vm_compute; reflexivity | ]].
  apply (black_image_fixed_report black_png); vm_compute; reflexivity.
Defined.



(** C4. The report has exactly the four numeric fields, and whenever the
    page is in the result phase the result view is rendered from a report
    with all four present: red area, red perimeter, blue area, blue
    perimeter. *)
Theorem rendered_report_complete (es : list Event) (w : World) :
  run es init = Some w -> phase (ui w) = result ->
  exists r,
    results (ui w) = Some r
    /\ r = mkResults (redArea r) (blueArea r) (redPerimeter r) (bluePerimeter r)
    /\ render (ui w)
       = ResultView (shownPreview (ui w)) (redArea r) (redPerimeter r)
                    (blueArea r) (bluePerimeter r).
Proof.
  intros Hrun Hph.
  destruct (reportInv_reachable es w Hrun) as [_ Hres].
  specialize (Hres Hph). exists simulatedResults.
  split; [exact Hres | split; [reflexivity | ]].
  unfold render. rewrite Hph, Hres. reflexivity.
Qed.

Lemma rendered_report_complete_witness :
  exists w,
    run (session 0%nat red_jpg) init = Some w /\ phase (ui w) = result
    /\ exists r,
        results (ui w) = Some r
        /\ r = mkResults (redArea r) (blueArea r) (redPerimeter r) (bluePerimeter r)
        /\ render (ui w)
           = ResultView (shownPreview (ui w)) (redArea r) (redPerimeter r)
                        (blueArea r) (bluePerimeter r).
Proof.
  eexists.
  split; [vm_compute; reflexivity | ].
  split; [vm_compute; reflexivity | ].
  eapply (rendered_report_complete (session 0%nat red_jpg));
    vm_compute; reflexivity.
Defined.

(** *** The claims about the handlers and the phases *)

(** C5, evaluated on the overlapping uploads. After two drops in the upload
    view, one run of [startProcessing] per interval timer is started; the
    first run shows the result, the reset brings the upload view back, and
    the second run then moves the phase from upload straight to result,
    which is none of the changes of the three-phase view model. *)
Theorem stale_run_skips_processing :
  exists w w',
    run overlappingUploads init = Some w
    /\ step (TimerDone 9%nat) w = Some w'
    /\ phase (ui w) = upload
    /\ intervals w = []
    /\ phase (ui w') = result
    /\ viewModelChange (phase (ui w)) (TimerDone 9%nat) (phase (ui w')) = false.
Proof.
  do 2 eexists.
  split; [vm_compute; reflexivity | ].
  split; [vm_compute; reflexivity | ].
  repeat split.
Qed.

(** C8. A file whose type is neither image/jpeg nor image/png, or no file
    at all, leaves the whole world as it was under both handlers: component
    state, file input, timers, parked runs and object URLs. *)
Theorem rejected_file_changes_nothing (files0 : option File) (w : World) :
  (forall file, files0 = Some file ->
                type file <> "image/jpeg"%string
                /\ type file <> "image/png"%string) ->
  handleFileSelect files0 w = w /\ handleDrop files0 w = w.
Proof.
  intro Hrej. unfold handleFileSelect, handleDrop.
  destruct files0 as [file | ]; [ | split; reflexivity].
  destruct (Hrej file eq_refl) as [Hjpeg Hpng].
  unfold accepted.
  apply String.eqb_neq in Hjpeg. apply String.eqb_neq in Hpng.
  rewrite Hjpeg, Hpng. split; reflexivity.
Qed.

Lemma rejected_file_changes_nothing_witness :
  handleFileSelect (Some notes_txt) init = init
  /\ handleDrop (Some notes_txt) init = init.
Proof.
  apply (rejected_file_changes_nothing (Some notes_txt) init).
  intros file Hfile. injection Hfile as <-.
  split; intro Heq; discriminate Heq.
Defined.

(** C9, evaluated on the stale interval. The result view is shown with
    its report while the interval of a later upload is still alive; the
    interval's next firing calls [startProcessing], which leaves the result
    phase for the processing phase and keeps the report: a transition out
    of the result phase that does not reset the results. *)
Theorem stale_interval_keeps_report :
  exists w w',
    run staleInterval init = Some w
    /\ step (Tick 10%nat) w = Some w'
    /\ phase (ui w) = result
    /\ results (ui w) = Some simulatedResults
    /\ phase (ui w') = processing
    /\ results (ui w') = Some simulatedResults.
Proof.
  do 2 eexists.
  split; [vm_compute; reflexivity | ].
  split; [vm_compute; reflexivity | ].
  repeat split.
Qed.

(** X10. In every world the page can reach, stale timers included, a phase
    of [result] comes with a report; and the reset leaves the result phase
    with the report cleared in the same handler. *)
Theorem result_phase_has_results (es : list Event) (w : World) :
  run es init = Some w ->
  (phase (ui w) = result -> exists r, results (ui w) = Some r)
  /\ phase (ui (handleReset w)) = upload
  /\ results (ui (handleReset w)) = None.
Proof.
  intro Hrun. split.
  - intro Hph. exists simulatedResults.
    exact (proj2 (reportInv_reachable es w Hrun) Hph).
  - rewrite handleReset_ui. split; reflexivity.
Qed.

Lemma result_phase_has_results_witness :
  exists w,
    run (session 0%nat black_png) init = Some w
    /\ phase (ui w) = result
    /\ exists r, results (ui w) = Some r.
Proof.
  eexists.
  split; [vm_compute; reflexivity | ].
  split; [vm_compute; reflexivity | ].
  eapply (proj1 (result_phase_has_results (session 0%nat black_png) _ _)).
  vm_compute; reflexivity.
  Unshelve. vm_compute; reflexivity.
Defined.

(** C10. From any world, [handleReset] gives the six cells their initial
    values; the file input, if mounted, is emptied, and the input of the
    upload view rendered next is empty as on the first render; a second
    reset changes nothing more. *)
Theorem handleReset_restores_initial (w : World) :
  ui (handleReset w) = mkState upload 0 0 None None None
  /\ ui (handleReset w) = ui init
  /\ fileInput (handleReset w)
     = match fileInput w with Some _ => Some EmptyString | None => None end
  /\ fileInput (commit (handleReset w)) = fileInput init
  /\ handleReset (handleReset w) = handleReset w.
Proof.
  destruct w as [s [v | ] ivs aws nt urls]; repeat split.
Qed.

(** ** Facts about the region geometry *)

Import Geometry.

Section Sums.

Lemma zsum_app (l1 l2 : list Z) : zsum (l1 ++ l2) = zsum l1 + zsum l2.
Proof.
  induction l1 as [ | a l1 IH]; cbn; [reflexivity | rewrite IH; lia].
Qed.

Lemma zsum_flat_map {A B : Type} (f : B -> Z) (g : A -> list B) (l : list A) :
  zsum (map f (flat_map g l)) = zsum (map (fun a => zsum (map f (g a))) l).
Proof.
  induction l as [ | a l IH]; cbn; [reflexivity | ].
  rewrite map_app, zsum_app, IH. reflexivity.
Qed.

Lemma zsum_map_add {A : Type} (f g : A -> Z) (l : list A) :
  zsum (map (fun a => f a + g a) l) = zsum (map f l) + zsum (map g l).
Proof.
  induction l as [ | a l IH]; cbn; [reflexivity | rewrite IH; lia].
Qed.

Lemma zsum_map_scale {A : Type} (c : Z) (f : A -> Z) (l : list A) :
  zsum (map (fun a => c * f a) l) = c * zsum (map f l).
Proof.
  induction l as [ | a l IH]; cbn; [lia | rewrite IH; lia].
Qed.

Lemma zsum_map_const {A : Type} (c : Z) (l : list A) :
  zsum (map (fun _ => c) l) = Z.of_nat (List.length l) * c.
Proof.
  induction l as [ | a l IH]; [reflexivity | ].
  cbn [map zsum List.length]. rewrite IH. lia.
Qed.

(** Exactly one index of [a, a + n) equals [k], when [k] is in range. *)
Lemma zsum_indicator_seq (k : nat) :
  forall n a,
    zsum (map (fun i => Z.b2z (Nat.eqb i k)) (seq a n))
    = Z.b2z (Nat.leb a k && Nat.ltb k (a + n)).
Proof.
  induction n as [ | n IH]; intro a.
  - cbn [seq map zsum].
    destruct (Nat.leb_spec a k), (Nat.ltb_spec k (a + 0)); cbn [andb Z.b2z]; lia.
  - cbn [seq map zsum]. rewrite IH.
    destruct (Nat.eqb_spec a k), (Nat.leb_spec a k), (Nat.leb_spec (S a) k),
      (Nat.ltb_spec k (S a + n)), (Nat.ltb_spec k (a + S n));
      cbn [andb Z.b2z]; lia.
Qed.

Lemma zsum_first (n : nat) :
  (1 <= n)%nat -> zsum (map (fun i => Z.b2z (Nat.eqb i 0)) (seq 0 n)) = 1.
Proof.
  intro Hn. rewrite zsum_indicator_seq.
  destruct (Nat.ltb_spec 0 (0 + n)); cbn [Nat.leb andb Z.b2z]; lia.
Qed.

Lemma zsum_last (n : nat) :
  (1 <= n)%nat -> zsum (map (fun i => Z.b2z (Nat.eqb (S i) n)) (seq 0 n)) = 1.
Proof.
  intro Hn.
  rewrite (map_ext _ (fun i => Z.b2z (Nat.eqb i (n - 1)))).
  - rewrite zsum_indicator_seq.
    destruct (Nat.ltb_spec (n - 1) (0 + n)); cbn [Nat.leb andb Z.b2z]; lia.
  - intro i. f_equal.
    destruct (Nat.eqb_spec (S i) n), (Nat.eqb_spec i (n - 1)); lia.
Qed.

End Sums.

Section Membership.

Lemma cell_eqb_eq (a b : Cell) : cell_eqb a b = true <-> a = b.
Proof.
  destruct a as [xa ya], b as [xb yb]. unfold cell_eqb. cbn.
  rewrite andb_true_iff, !Z.eqb_eq. split.
  - intros [-> ->]. reflexivity.
  - intro H. injection H as -> ->. split; reflexivity.
Qed.

Lemma member_In (r : Region) (c : Cell) :
  member r c = true <-> In c (members r).
Proof.
  unfold member. rewrite existsb_exists. split.
  - intros [c' [Hin Heq]]. apply cell_eqb_eq in Heq. subst c'. exact Hin.
  - intro Hin. exists c. split; [exact Hin | apply cell_eqb_eq; reflexivity].
Qed.

Lemma In_rect_cells (x0 y0 : Z) (n m : nat) (x y : Z) :
  In (x, y) (rect_cells x0 y0 n m)
  <-> x0 <= x < x0 + Z.of_nat n /\ y0 <= y < y0 + Z.of_nat m.
Proof.
  unfold rect_cells, row_cells. rewrite in_flat_map. split.
  - intros [j [Hj Hin]]. apply in_map_iff in Hin.
    destruct Hin as [i [Heq Hi]]. apply in_seq in Hj. apply in_seq in Hi.
    injection Heq as <- <-. lia.
  - intros [Hx Hy]. exists (Z.to_nat (y - y0)). split.
    + apply in_seq. lia.
    + apply in_map_iff. exists (Z.to_nat (x - x0)). split.
      * f_equal; lia.
      * apply in_seq. lia.
Qed.

Lemma member_rectangle (k : Category) (x0 y0 : Z) (n m : nat) (x y : Z) :
  member (rectangle k x0 y0 n m) (x, y)
  = (x0 <=? x) && (x <? x0 + Z.of_nat n)
    && (y0 <=? y) && (y <? y0 + Z.of_nat m).
Proof.
  apply eq_true_iff_eq.
  rewrite member_In. cbn [members rectangle]. rewrite In_rect_cells.
  rewrite !andb_true_iff, !Z.leb_le, !Z.ltb_lt. tauto.
Qed.

(** The exposed edges of a cell, one term per direction. *)
Lemma exposed_eq (r : Region) (x y : Z) :
  exposed r (x, y)
  = Z.b2z (negb (member r (x - 1, y))) + Z.b2z (negb (member r (x + 1, y)))
    + Z.b2z (negb (member r (x, y - 1))) + Z.b2z (negb (member r (x, y + 1))).
Proof.
  unfold exposed. cbn [neighbours4 filter].
  destruct (member r (x - 1, y)), (member r (x + 1, y)),
    (member r (x, y - 1)), (member r (x, y + 1)); reflexivity.
Qed.

(** A cell outside the grid is no member of a region inside it. *)
Lemma outside_grid_not_member (width height : Z) (r : Region) (c : Cell) :
  forallb (in_grid width height) (members r) = true ->
  in_grid width height c = false -> member r c = false.
Proof.
  intros Hall Hout. destruct (member r c) eqn:Hm; [ | reflexivity].
  apply member_In in Hm. rewrite forallb_forall in Hall.
  rewrite (Hall c Hm) in Hout. discriminate Hout.
Qed.

End Membership.

Section Rectangle.

Variables (k : Category) (x0 y0 : Z) (n m : nat).

(** Inside the rectangle a cell's exposed edges are those on the
    rectangle's first and last column and first and last row. *)
Lemma exposed_rectangle (i j : nat) :
  (i < n)%nat -> (j < m)%nat ->
  exposed (rectangle k x0 y0 n m) (x0 + Z.of_nat i, y0 + Z.of_nat j)
  = Z.b2z (Nat.eqb i 0) + Z.b2z (Nat.eqb (S i) n)
    + (Z.b2z (Nat.eqb j 0) + Z.b2z (Nat.eqb (S j) m)).
Proof.
  intros Hi Hj. rewrite exposed_eq. rewrite !member_rectangle.
  assert (Hl : (x0 <=? x0 + Z.of_nat i - 1) = negb (Nat.eqb i 0))
    by (destruct (Z.leb_spec x0 (x0 + Z.of_nat i - 1)), (Nat.eqb_spec i 0);
        cbn; lia).
  assert (Hr : (x0 + Z.of_nat i + 1 <? x0 + Z.of_nat n) = negb (Nat.eqb (S i) n))
    by (destruct (Z.ltb_spec (x0 + Z.of_nat i + 1) (x0 + Z.of_nat n)),
          (Nat.eqb_spec (S i) n); cbn; lia).
  assert (Hu : (y0 <=? y0 + Z.of_nat j - 1) = negb (Nat.eqb j 0))
    by (destruct (Z.leb_spec y0 (y0 + Z.of_nat j - 1)), (Nat.eqb_spec j 0);
        cbn; lia).
  assert (Hd : (y0 + Z.of_nat j + 1 <? y0 + Z.of_nat m) = negb (Nat.eqb (S j) m))
    by (destruct (Z.ltb_spec (y0 + Z.of_nat j + 1) (y0 + Z.of_nat m)),
          (Nat.eqb_spec (S j) m); cbn; lia).
  assert (Hx1 : (x0 <=? x0 + Z.of_nat i) = true) by (apply Z.leb_le; lia).
  assert (Hx2 : (x0 + Z.of_nat i <? x0 + Z.of_nat n) = true)
    by (apply Z.ltb_lt; lia).
  assert (Hx3 : (x0 + Z.of_nat i - 1 <? x0 + Z.of_nat n) = true)
    by (apply Z.ltb_lt; lia).
  assert (Hx4 : (x0 <=? x0 + Z.of_nat i + 1) = true) by (apply Z.leb_le; lia).
  assert (Hy1 : (y0 <=? y0 + Z.of_nat j) = true) by (apply Z.leb_le; lia).
  assert (Hy2 : (y0 + Z.of_nat j <? y0 + Z.of_nat m) = true)
    by (apply Z.ltb_lt; lia).
  assert (Hy3 : (y0 + Z.of_nat j - 1 <? y0 + Z.of_nat m) = true)
    by (apply Z.ltb_lt; lia).
  assert (Hy4 : (y0 <=? y0 + Z.of_nat j + 1) = true) by (apply Z.leb_le; lia).
  rewrite Hl, Hr, Hu, Hd, Hx1, Hx2, Hx3, Hx4, Hy1, Hy2, Hy3, Hy4.
  rewrite !andb_true_r, !andb_true_l, !negb_involutive. lia.
Qed.

Lemma row_perimeter (j : nat) :
  (1 <= n)%nat -> (j < m)%nat ->
  zsum (map (exposed (rectangle k x0 y0 n m)) (row_cells x0 n (y0 + Z.of_nat j)))
  = 2 + Z.of_nat n * (Z.b2z (Nat.eqb j 0) + Z.b2z (Nat.eqb (S j) m)).
Proof.
  intros Hn Hj. unfold row_cells. rewrite map_map.
  rewrite (map_ext_in _
             (fun i => (Z.b2z (Nat.eqb i 0) + Z.b2z (Nat.eqb (S i) n))
                       + (Z.b2z (Nat.eqb j 0) + Z.b2z (Nat.eqb (S j) m)))).
  - rewrite zsum_map_add, zsum_map_add, zsum_map_const, length_seq.
    rewrite (zsum_first n Hn), (zsum_last n Hn). lia.
  - intros i Hi. apply in_seq in Hi. apply exposed_rectangle; lia.
Qed.

Lemma length_rect_cells :
  List.length (rect_cells x0 y0 n m) = (m * n)%nat.
Proof.
  unfold rect_cells.
  assert (Hrows : forall l,
             List.length (flat_map (fun j => row_cells x0 n (y0 + Z.of_nat j)) l)
             = (List.length l * n)%nat).
  { induction l as [ | j l IH]; cbn [flat_map List.length]; [reflexivity | ].
    rewrite length_app, IH. unfold row_cells.
    rewrite length_map, length_seq. reflexivity. }
  rewrite Hrows, length_seq. reflexivity.
Qed.

Lemma area_rectangle : area (rectangle k x0 y0 n m) = Z.of_nat n * Z.of_nat m.
Proof.
  unfold area. cbn [members rectangle]. rewrite length_rect_cells. lia.
Qed.

Lemma perimeter_rectangle :
  (1 <= n)%nat -> (1 <= m)%nat ->
  perimeter (rectangle k x0 y0 n m) = 2 * (Z.of_nat n + Z.of_nat m).
Proof.
  intros Hn Hm. unfold perimeter.
  cbn [members rectangle]. unfold rect_cells. rewrite zsum_flat_map.
  rewrite (map_ext_in _
             (fun j => 2 + Z.of_nat n
                           * (Z.b2z (Nat.eqb j 0) + Z.b2z (Nat.eqb (S j) m)))).
  - rewrite zsum_map_add, zsum_map_const, length_seq.
    rewrite zsum_map_scale, zsum_map_add.
    rewrite (zsum_first m Hm), (zsum_last m Hm). lia.
  - intros j Hj. apply in_seq in Hj. apply row_perimeter; lia.
Qed.

End Rectangle.

Lemma perimeter_in_grid (width height : Z) (r : Region) :
  forallb (in_grid width height) (members r) = true ->
  perimeter_in width height r = perimeter r.
Proof.
  intro Hall. unfold perimeter_in, perimeter. apply f_equal, map_ext.
  intro c. unfold exposed_in, exposed. do 2 f_equal. apply filter_ext.
  intro c'. destruct (in_grid width height c') eqn:Hin; [reflexivity | ].
  rewrite (outside_grid_not_member width height r c' Hall Hin). reflexivity.
Qed.

(** *** The claims about the measurement *)

(** C6. A region of exactly one cell, of any category, measures area 1
    and perimeter 4; the measurement is a total function, so the region is
    measured and not refused. The same holds with the grid named, wherever
    the cell lies in it. *)
Theorem single_pixel_measure (r : Region) (c : Cell) :
  members r = [c] ->
  measure r = (1, 4)
  /\ forall width height,
       in_grid width height c = true -> perimeter_in width height r = 4.
Proof.
  intro Hmem.
  assert (Hp : perimeter r = 4).
  { unfold perimeter. rewrite Hmem. destruct c as [x y].
    cbn [map zsum]. rewrite exposed_eq. unfold member. rewrite Hmem.
    cbn [existsb]. unfold cell_eqb. cbn [fst snd].
    replace (x - 1 =? x) with false by (symmetry; apply Z.eqb_neq; lia).
    replace (x + 1 =? x) with false by (symmetry; apply Z.eqb_neq; lia).
    replace (y - 1 =? y) with false by (symmetry; apply Z.eqb_neq; lia).
    replace (y + 1 =? y) with false by (symmetry; apply Z.eqb_neq; lia).
    rewrite !andb_false_r. reflexivity. }
  split.
  - unfold measure, area. rewrite Hp, Hmem. reflexivity.
  - intros width height Hin. rewrite perimeter_in_grid; [exact Hp | ].
    rewrite Hmem. cbn [forallb]. rewrite Hin. reflexivity.
Qed.

Lemma single_pixel_measure_witness :
  measure (mkRegion Red [(0, 0)]) = (1, 4)
  /\ measure (mkRegion Blue [(7, 3)]) = (1, 4).
Proof.
  split.
  - apply (single_pixel_measure (mkRegion Red [(0, 0)]) (0, 0)). reflexivity.
  - apply (single_pixel_measure (mkRegion Blue [(7, 3)]) (7, 3)). reflexivity.
Defined.

(** C7. A solid rectangle of [n] columns and [m] rows, [n] and [m] at
    least 1, of any category and anywhere, measures area [n * m] and
    perimeter [2 * (n + m)]; the perimeter is the number of edges of member
    cells whose neighbour is not a member, and counting a neighbour outside
    the grid as a non-member gives the same number. *)
Theorem rectangle_measure (k : Category) (x0 y0 : Z) (n m : nat) :
  (1 <= n)%nat -> (1 <= m)%nat ->
  measure (rectangle k x0 y0 n m)
  = (Z.of_nat n * Z.of_nat m, 2 * (Z.of_nat n + Z.of_nat m))
  /\ forall width height,
       forallb (in_grid width height) (members (rectangle k x0 y0 n m)) = true ->
       perimeter_in width height (rectangle k x0 y0 n m)
       = 2 * (Z.of_nat n + Z.of_nat m).
Proof.
  intros Hn Hm. split.
  - unfold measure.
    rewrite area_rectangle, (perimeter_rectangle k x0 y0 n m Hn Hm).
    reflexivity.
  - intros width height Hin. rewrite (perimeter_in_grid width height _ Hin).
    exact (perimeter_rectangle k x0 y0 n m Hn Hm).
Qed.

Lemma rectangle_measure_witness :
  measure (rectangle Red 0 0 3 2) = (6, 10)
  /\ perimeter_in 3 2 (rectangle Red 0 0 3 2) = 10.
Proof.
  destruct (rectangle_measure Red 0 0 3 2) as [Hmeasure Hgrid]; [lia | lia | ].
  split; [exact Hmeasure | ].
  apply Hgrid. reflexivity.
Defined.

(** *** One upload at a time *)

Lemma oneTimer_init : oneTimer init.
Proof.
  split; [intros _; reflexivity | split; [reflexivity | cbn; lia]].
Qed.

(** With a single pending timer every event makes one of the phase changes
    of the view model and leaves a single pending timer. *)
Lemma oneTimer_step (e : Event) (w w' : World) :
  oneTimer w -> oneAtATime e w = true -> step e w = Some w' ->
  oneTimer w' /\ viewModelChange (phase (ui w)) e (phase (ui w')) = true.
Proof.
  destruct w as [[p up cs sf pu rs] fi ivs aws nt urls].
  unfold oneTimer, oneAtATime, step. cbn [ui phase intervals awaiting fileInput].
  intros [Hin Hone] Hcalm Hstep.
  destruct e as [files0 | files0 | t | t | ].
  - destruct fi as [v | ]; [ | discriminate].
    rewrite Hin in * by discriminate.
    destruct ivs; [ | discriminate].
    injection Hstep as <-.
    destruct files0 as [file | ]; cbn; [destruct (accepted file); cbn | ].
    all: intuition (try discriminate; try lia).
  - destruct p; try discriminate.
    destruct ivs; [ | discriminate].
    injection Hstep as <-.
    destruct files0 as [file | ]; cbn; [destruct (accepted file); cbn | ].
    all: destruct fi; cbn; intuition (try discriminate; try lia).
  - destruct p; destruct Hone as [H1 H2]; subst; try discriminate.
    destruct ivs as [ | t0 [ | t1 ivs]]; cbn in H2; try lia; try discriminate.
    cbn in Hstep. destruct (Nat.eqb_spec t t0) as [-> | ]; [ | discriminate].
    injection Hstep as <-. unfold intervalCallback.
    cbn [ui uploadProgress]. destruct (100 <=? up); cbn.
    + rewrite Nat.eqb_refl. cbn. intuition (try discriminate; try lia).
    + destruct fi; cbn; intuition (try discriminate; try lia).
  - destruct p; destruct Hone as [H1 H2]; subst; try discriminate.
    destruct aws as [ | [t0 i] [ | a aws]]; cbn in H2; try lia; try discriminate.
    cbn in Hstep. destruct (Nat.eqb_spec t0 t) as [-> | ]; [ | discriminate].
    injection Hstep as <-. unfold resumeProcessing, processingLoop.
    destruct (nth_error processingSteps (S i)); cbn; rewrite Nat.eqb_refl; cbn.
    all: intuition (try discriminate; try lia).
  - destruct p; cbn in Hstep; try discriminate.
    destruct rs; [ | discriminate]. injection Hstep as <-.
    destruct Hone as [-> ->]. destruct fi; cbn.
    all: intuition (try discriminate; try lia).
Qed.

(** A run of a user who starts one upload at a time makes only the phase
    changes of the three-phase view model. *)
Lemma disciplined_changes (es : list Event) :
  forall w, oneTimer w -> disciplined es w = true ->
            Forall (fun c => viewModelChange (fst (fst c)) (snd (fst c)) (snd c)
                             = true)
                   (phaseChanges es w).
Proof.
  induction es as [ | e es IH]; intros w Hone Hdisc; cbn; [constructor | ].
  cbn in Hdisc. apply andb_true_iff in Hdisc. destruct Hdisc as [Hcalm Hrest].
  destruct (step e w) as [w' | ] eqn:Hstep; [ | constructor].
  destruct (oneTimer_step e w w' Hone Hcalm Hstep) as [Hone' Hchange].
  constructor; [exact Hchange | exact (IH w' Hone' Hrest)].
Qed.

(** ** Further facts about the front end *)

Lemma blobUrl_shown (k : nat) :
  (blobUrl k =? EmptyString)%string = false.
Proof. reflexivity. Qed.

(** Closes [fileInput <> None <-> phase = upload] on computed worlds. *)
Ltac mount_iff :=
  let Hm := fresh "Hm" in
  split; intro Hm;
  first [ reflexivity | discriminate Hm | discriminate
        | exfalso; apply Hm; reflexivity ].

Ltac progress_goal k :=
  split; [exists k; split; [lia | (reflexivity || lia)] | ];
  split; [first [discriminate | reflexivity | assumption] | mount_iff].

Lemma progressInv_init : progressInv init.
Proof. progress_goal 0%nat. Qed.

Lemma progressInv_step (e : Event) (w w' : World) :
  step e w = Some w' -> progressInv w -> progressInv w'.
Proof.
  destruct w as [[p up cs sf pu rs] fi ivs aws nt urls].
  unfold progressInv, step.
  cbn [ui phase uploadProgress fileInput intervals awaiting].
  intros Hstep [[k [Hk Hup]] [Hproc Hmount]].
  destruct e as [files0 | files0 | t | t | ].
  - destruct fi as [v | ]; [ | discriminate].
    assert (p = upload) by (apply Hmount; discriminate). subst p.
    injection Hstep as <-.
    destruct files0 as [file | ]; cbn -[Z.mul Z.of_nat];
      [destruct (accepted file); cbn -[Z.mul Z.of_nat] | ];
      first [progress_goal 0%nat | progress_goal k].
  - destruct p; try discriminate. injection Hstep as <-.
    destruct files0 as [file | ]; cbn -[Z.mul Z.of_nat];
      [destruct (accepted file) | ]; destruct fi; cbn -[Z.mul Z.of_nat];
      first [progress_goal 0%nat | progress_goal k].
  - destruct (existsb (Nat.eqb t) ivs); [ | discriminate].
    injection Hstep as <-. unfold intervalCallback. cbn [ui uploadProgress].
    destruct (Z.leb_spec 100 up) as [Hge | Hlt].
    + cbn -[Z.mul Z.of_nat]. progress_goal 10%nat.
    + assert (p <> processing) by (intro Hp; specialize (Hproc Hp); lia).
      destruct p; try contradiction; destruct fi;
        cbn -[Z.mul Z.of_nat]; progress_goal (S k).
  - destruct (find (fun q => Nat.eqb (fst q) t) aws) as [[t0 i] | ];
      [ | discriminate].
    injection Hstep as <-. unfold resumeProcessing, processingLoop.
    destruct (nth_error processingSteps (S i)); destruct p; destruct fi;
      cbn -[Z.mul Z.of_nat]; progress_goal k.
  - destruct p; cbn in Hstep; try discriminate.
    destruct rs; [ | discriminate]. injection Hstep as <-.
    destruct fi; cbn -[Z.mul Z.of_nat]; progress_goal 0%nat.
Qed.

Lemma run_invariant (P : World -> Prop) :
  (forall e w w', step e w = Some w' -> P w -> P w') ->
  forall es w w', run es w = Some w' -> P w -> P w'.
Proof.
  intros Hstep es. induction es as [ | e es IH]; intros w w' Hrun Hw.
  - injection Hrun as <-. exact Hw.
  - rewrite run_cons in Hrun.
    destruct (step e w) as [w1 | ] eqn:He; [ | discriminate].
    exact (IH w1 w' Hrun (Hstep e w w1 He Hw)).
Qed.

Lemma stepInv_step (e : Event) (w w' : World) :
  step e w = Some w' -> stepInv w -> stepInv w'.
Proof.
  destruct w as [[p up cs sf pu rs] fi ivs aws nt urls].
  unfold stepInv, step. cbn [ui phase currentStep fileInput intervals awaiting].
  intros Hstep Hcs.
  destruct e as [files0 | files0 | t | t | ].
  - destruct fi as [v | ]; [ | discriminate]. injection Hstep as <-.
    rewrite ui_commit.
    destruct files0 as [file | ]; cbn; [destruct (accepted file) | ]; exact Hcs.
  - destruct p; try discriminate. injection Hstep as <-. rewrite ui_commit.
    destruct files0 as [file | ]; cbn; [destruct (accepted file) | ]; exact Hcs.
  - destruct (existsb (Nat.eqb t) ivs); [ | discriminate].
    injection Hstep as <-. rewrite ui_commit. unfold intervalCallback.
    cbn [ui uploadProgress]. destruct (100 <=? up); cbn; [lia | exact Hcs].
  - destruct (find (fun q => Nat.eqb (fst q) t) aws) as [[t0 i] | ];
      [ | discriminate].
    injection Hstep as <-. rewrite ui_commit.
    unfold resumeProcessing, processingLoop.
    destruct (nth_error processingSteps (S i)) eqn:Hnth; cbn [ui currentStep].
    + assert (Hlt : (S i < List.length processingSteps)%nat)
        by (apply nth_error_Some; rewrite Hnth; discriminate).
      cbn [setCurrentStep onUi ui currentStep awaitTimeout]. exact Hlt.
    + exact Hcs.
  - destruct (render _); try discriminate. injection Hstep as <-.
    rewrite ui_commit, handleReset_ui. cbn. lia.
Qed.

Lemma selectionInv_step (e : Event) (w w' : World) :
  step e w = Some w' -> selectionInv w -> selectionInv w'.
Proof.
  destruct w as [[p up cs sf pu rs] fi ivs aws nt urls].
  unfold selectionInv, step.
  cbn [ui phase selectedFile previewUrl objectUrls fileInput intervals awaiting].
  intros Hstep Hsel.
  destruct e as [files0 | files0 | t | t | ].
  - destruct fi as [v | ]; [ | discriminate]. injection Hstep as <-.
    destruct files0 as [file | ]; cbn;
      [destruct (accepted file) eqn:Hacc; cbn | ].
    + split; [exact Hacc | split; [left; reflexivity | reflexivity]].
    + destruct p; exact Hsel.
    + destruct p; exact Hsel.
  - destruct p; try discriminate. injection Hstep as <-.
    destruct files0 as [file | ]; cbn;
      [destruct (accepted file) eqn:Hacc | ]; destruct fi; cbn;
      first [exact Hsel
            | split; [exact Hacc | split; [left; reflexivity | reflexivity]]].
  - destruct (existsb (Nat.eqb t) ivs); [ | discriminate].
    injection Hstep as <-. unfold intervalCallback. cbn [ui uploadProgress].
    destruct (100 <=? up); destruct p; destruct fi; exact Hsel.
  - destruct (find (fun q => Nat.eqb (fst q) t) aws) as [[t0 i] | ];
      [ | discriminate].
    injection Hstep as <-. unfold resumeProcessing, processingLoop.
    destruct (nth_error processingSteps (S i)); destruct p; destruct fi;
      exact Hsel.
  - destruct p; cbn in Hstep; try discriminate.
    destruct rs; [ | discriminate]. injection Hstep as <-.
    destruct fi; exact I.
Qed.

Lemma selectionInv_init : selectionInv init.
Proof. exact I. Qed.

Lemma stepInv_init : stepInv init.
Proof. unfold stepInv. cbn. lia. Qed.

Lemma analysedInv_step (e : Event) (w w' : World) :
  analysedInv w -> oneAtATime e w = true -> step e w = Some w' ->
  analysedInv w'.
Proof.
  intros [Hone Hsel] Hcalm Hstep.
  split; [exact (proj1 (oneTimer_step e w w' Hone Hcalm Hstep)) | ].
  destruct w as [[p up cs sf pu rs] fi ivs aws nt urls].
  unfold oneTimer, oneAtATime, step in *.
  cbn [ui phase selectedFile intervals awaiting fileInput] in *.
  destruct Hone as [Hin Hone].
  destruct e as [files0 | files0 | t | t | ].
  - destruct fi as [v | ]; [ | discriminate].
    rewrite Hin in * by discriminate.
    destruct ivs; [ | discriminate]. injection Hstep as <-.
    destruct files0 as [file | ]; cbn; [destruct (accepted file); cbn | ].
    + right. discriminate.
    + left. split; reflexivity.
    + left. split; reflexivity.
  - destruct p; try discriminate.
    destruct ivs; [ | discriminate]. injection Hstep as <-.
    destruct files0 as [file | ]; cbn; [destruct (accepted file) | ];
      destruct fi; cbn;
      first [right; discriminate | left; split; reflexivity].
  - destruct p; destruct Hone as [H1 H2]; subst; try discriminate.
    destruct ivs as [ | t0 ivs]; [discriminate | ].
    destruct Hsel as [[_ Hnil] | Hsf]; [discriminate | ].
    destruct (existsb (Nat.eqb t) (t0 :: ivs)); [ | discriminate].
    injection Hstep as <-. unfold intervalCallback. cbn [ui uploadProgress].
    destruct (100 <=? up); destruct fi; cbn; right; exact Hsf.
  - destruct p; destruct Hone as [H1 H2]; subst; try discriminate.
    destruct Hsel as [[Hp _] | Hsf]; [discriminate | ].
    destruct (find (fun q => Nat.eqb (fst q) t) aws) as [[t0 i] | ];
      [ | discriminate].
    injection Hstep as <-. unfold resumeProcessing, processingLoop.
    destruct (nth_error processingSteps (S i)); cbn; right; exact Hsf.
  - destruct p; cbn in Hstep; try discriminate.
    destruct rs; [ | discriminate]. injection Hstep as <-.
    destruct Hone as [-> ->]. destruct fi; cbn; left; split; reflexivity.
Qed.

Lemma analysedInv_run (es : list Event) :
  forall w w', analysedInv w -> disciplined es w = true ->
               run es w = Some w' -> analysedInv w'.
Proof.
  induction es as [ | e es IH]; intros w w' Hinv Hdisc Hrun.
  - injection Hrun as <-. exact Hinv.
  - rewrite run_cons in Hrun. cbn [disciplined] in Hdisc.
    apply andb_true_iff in Hdisc. destruct Hdisc as [Hcalm Hrest].
    destruct (step e w) as [w1 | ] eqn:He; [ | discriminate].
    exact (IH w1 w' (analysedInv_step e w w1 Hinv Hcalm He) Hrest Hrun).
Qed.

Lemma analysedInv_init : analysedInv init.
Proof. split; [exact oneTimer_init | left; split; reflexivity]. Qed.

Lemma progressInv_reachable (es : list Event) (w : World) :
  run es init = Some w -> progressInv w.
Proof.
  intro Hrun.
  exact (run_invariant progressInv progressInv_step es init w Hrun
           progressInv_init).
Qed.

(** Every step keeps the registry of object URLs or puts one URL in front. *)
Lemma objectUrls_step (e : Event) (w w' : World) :
  step e w = Some w' ->
  objectUrls w' = objectUrls w
  \/ exists u f, objectUrls w' = (u, f) :: objectUrls w.
Proof.
  destruct w as [[p up cs sf pu rs] fi ivs aws nt urls].
  unfold step. cbn [ui phase objectUrls fileInput intervals awaiting].
  intro Hstep.
  destruct e as [files0 | files0 | t | t | ].
  - destruct fi as [v | ]; [ | discriminate]. injection Hstep as <-.
    destruct files0 as [file | ]; cbn; [destruct (accepted file); cbn | ].
    + right. eexists. eexists. reflexivity.
    + left. destruct p; reflexivity.
    + left. destruct p; reflexivity.
  - destruct p; try discriminate. injection Hstep as <-.
    destruct files0 as [file | ]; cbn; [destruct (accepted file) | ];
      destruct fi; cbn;
      first [left; reflexivity | right; eexists; eexists; reflexivity].
  - destruct (existsb (Nat.eqb t) ivs); [ | discriminate].
    injection Hstep as <-. unfold intervalCallback. cbn [ui uploadProgress].
    left. destruct (100 <=? up); destruct p; destruct fi; reflexivity.
  - destruct (find (fun q => Nat.eqb (fst q) t) aws) as [[t0 i] | ];
      [ | discriminate].
    injection Hstep as <-. unfold resumeProcessing, processingLoop.
    left. destruct (nth_error processingSteps (S i)); destruct p; destruct fi;
      reflexivity.
  - destruct p; cbn in Hstep; try discriminate.
    destruct rs; [ | discriminate]. injection Hstep as <-.
    left. destruct fi; reflexivity.
Qed.

(** *** Properties of the page beyond the claims *)

(** X1. On every page state reachable from the first render the upload
    progress is one of 0, 10, ..., 100, it is 100 whenever the phase is
    processing, and a progress bar, when rendered, shows a value from 10
    to 90. *)
Theorem progress_in_range (es : list Event) (w : World) :
  run es init = Some w ->
  (exists k, (k <= 10)%nat /\ uploadProgress (ui w) = 10 * Z.of_nat k)
  /\ 0 <= uploadProgress (ui w) <= 100
  /\ (phase (ui w) = processing -> uploadProgress (ui w) = 100)
  /\ (forall title bar,
         render (ui w) = UploadView title (Some bar) -> 10 <= bar <= 90).
Proof.
  intro Hrun.
  destruct (progressInv_reachable es w Hrun) as [[k [Hk Hup]] [Hproc _]].
  split; [exists k; split; assumption | ].
  split; [lia | ]. split; [exact Hproc | ].
  intros title bar. unfold render.
  destruct (phase (ui w)); try discriminate.
  - destruct (Z.ltb_spec 0 (uploadProgress (ui w))),
      (Z.ltb_spec (uploadProgress (ui w)) 100); cbn [andb]; try discriminate.
    intro Hview. injection Hview as _ <-. lia.
  - destruct (results (ui w)); discriminate.
Qed.

Lemma progress_in_range_witness :
  exists w,
    run (Drop (Some black_png) :: repeat (Tick 0%nat) 3) init = Some w
    /\ render (ui w) = UploadView "black.png" (Some 30)
    /\ 0 <= uploadProgress (ui w) <= 100.
Proof.
  eexists.
  split; [vm_compute; reflexivity | ].
  split; [vm_compute; reflexivity | ].
  eapply (progress_in_range (Drop (Some black_png) :: repeat (Tick 0%nat) 3)).
  vm_compute; reflexivity.
Defined.

(** X2. On every reachable page state [currentStep] indexes
    [processingSteps], so the processing view always finds the label it
    renders: [processingSteps[currentStep]] is never undefined. *)
Theorem processing_step_defined (es : list Event) (w : World) :
  run es init = Some w ->
  (currentStep (ui w) < List.length processingSteps)%nat
  /\ (phase (ui w) = processing ->
      exists st,
        nth_error processingSteps (currentStep (ui w)) = Some st
        /\ render (ui w)
           = ProcessingView (shownPreview (ui w)) (Some (label st))
                            (currentStep (ui w) + 1)
                            (List.length processingSteps)).
Proof.
  intro Hrun.
  assert (Hlt : stepInv w)
    by exact (run_invariant stepInv stepInv_step es init w Hrun stepInv_init).
  split; [exact Hlt | ]. intro Hph.
  destruct (nth_error processingSteps (currentStep (ui w))) as [st | ] eqn:Hnth.
  - exists st. split; [reflexivity | ].
    unfold render. rewrite Hph, Hnth. reflexivity.
  - apply nth_error_None in Hnth. unfold stepInv in Hlt. lia.
Qed.

Lemma processing_step_defined_witness :
  exists w,
    run (Drop (Some red_jpg) :: repeat (Tick 0%nat) 11
           ++ [TimerDone 1%nat; TimerDone 2%nat]) init = Some w
    /\ (currentStep (ui w) < List.length processingSteps)%nat.
Proof.
  eexists. split; [vm_compute; reflexivity | ].
  eapply proj1, (processing_step_defined
                   (Drop (Some red_jpg) :: repeat (Tick 0%nat) 11
                      ++ [TimerDone 1%nat; TimerDone 2%nat])).
  vm_compute; reflexivity.
Defined.

(** X3. On every reachable page state the selected file and the preview
    URL are both null or both set; when set, the file has an accepted type
    and the URL is the object URL created for that very file, non-empty and
    so shown. *)
Theorem selection_consistent (es : list Event) (w : World) :
  run es init = Some w ->
  (selectedFile (ui w) = None /\ previewUrl (ui w) = None)
  \/ exists f u,
       selectedFile (ui w) = Some f /\ previewUrl (ui w) = Some u
       /\ accepted f = true /\ In (u, f) (objectUrls w)
       /\ shownPreview (ui w) = Some u.
Proof.
  intro Hrun.
  assert (Hsel : selectionInv w)
    by exact (run_invariant selectionInv selectionInv_step es init w Hrun
                selectionInv_init).
  unfold selectionInv in Hsel.
  destruct (selectedFile (ui w)) as [f | ], (previewUrl (ui w)) as [u | ];
    try contradiction.
  - right. exists f, u. destruct Hsel as [Hacc [Hin Hshown]]. auto.
  - left. split; reflexivity.
Qed.

Lemma selection_consistent_witness :
  exists w,
    run (session 0%nat black_png ++ ClickReset :: [FileSelect (Some red_jpg)])
        init = Some w
    /\ selectedFile (ui w) = Some red_jpg
    /\ ((selectedFile (ui w) = None /\ previewUrl (ui w) = None)
        \/ exists f u,
             selectedFile (ui w) = Some f /\ previewUrl (ui w) = Some u
             /\ accepted f = true /\ In (u, f) (objectUrls w)
             /\ shownPreview (ui w) = Some u).
Proof.
  eexists. split; [vm_compute; reflexivity | ].
  split; [vm_compute; reflexivity | ].
  eapply (selection_consistent
            (session 0%nat black_png ++ ClickReset :: [FileSelect (Some red_jpg)])).
  vm_compute; reflexivity.
Defined.

(** X4. Object URLs are never revoked: whatever happens on the page, a
    reset included, every URL registered before is still registered after,
    in the same order, and [handleReset] itself leaves the registry as it
    is. *)
Theorem object_urls_never_revoked (es : list Event) (w w' : World) :
  run es w = Some w' ->
  (exists added, objectUrls w' = added ++ objectUrls w)
  /\ objectUrls (handleReset w) = objectUrls w.
Proof.
  intro Hrun. split.
  - revert w w' Hrun.
    induction es as [ | e es IH]; intros w w' Hrun.
    + injection Hrun as <-. exists []. reflexivity.
    + rewrite run_cons in Hrun.
      destruct (step e w) as [w1 | ] eqn:He; [ | discriminate].
      destruct (IH w1 w' Hrun) as [added Hadded].
      destruct (objectUrls_step e w w1 He) as [Hsame | [u [f Hnew]]].
      * exists added. rewrite Hadded, Hsame. reflexivity.
      * exists (added ++ [(u, f)]). rewrite Hadded, Hnew, <- app_assoc.
        reflexivity.
  - destruct w as [s [v | ] ivs aws nt urls]; reflexivity.
Qed.

Lemma object_urls_never_revoked_witness :
  exists w w',
    run (session 0%nat black_png) init = Some w
    /\ run (ClickReset :: session 5%nat red_jpg) w = Some w'
    /\ objectUrls w = [("blob:0"%string, black_png)]
    /\ exists added, objectUrls w' = added ++ objectUrls w.
Proof.
  eexists. eexists.
  split; [vm_compute; reflexivity | ].
  split; [vm_compute; reflexivity | ].
  split; [vm_compute; reflexivity | ].
  eapply proj1, (object_urls_never_revoked (ClickReset :: session 5%nat red_jpg)).
  vm_compute; reflexivity.
Defined.

(** X5. No event stops a running interval timer except that timer's own
    callback when it finds the progress at 100 or more, and no event drops
    a parked run of [startProcessing] except its own timeout: a new upload
    and the reset leave both running. *)
Theorem timers_outlive_events (e : Event) (w w' : World) (t : TimerId) :
  step e w = Some w' ->
  (In t (intervals w) ->
   In t (intervals w') \/ (e = Tick t /\ 100 <= uploadProgress (ui w)))
  /\ (forall i, In (t, i) (awaiting w) ->
                In (t, i) (awaiting w') \/ e = TimerDone t).
Proof.
  destruct w as [[p up cs sf pu rs] fi ivs aws nt urls].
  unfold step.
  cbn [ui phase uploadProgress fileInput intervals awaiting].
  intro Hstep.
  destruct e as [files0 | files0 | t1 | t1 | ].
  - destruct fi as [v | ]; [ | discriminate]. injection Hstep as <-.
    destruct files0 as [file | ]; cbn; [destruct (accepted file); cbn | ];
      destruct p; cbn; split; intros; left; cbn; auto.
  - destruct p; try discriminate. injection Hstep as <-.
    destruct files0 as [file | ]; cbn; [destruct (accepted file) | ];
      destruct fi; cbn; split; intros; left; cbn; auto.
  - destruct (existsb (Nat.eqb t1) ivs); [ | discriminate].
    injection Hstep as <-. unfold intervalCallback. cbn [ui uploadProgress].
    destruct (Z.leb_spec 100 up) as [Hge | Hlt].
    + split.
      * intro Hin. destruct (Nat.eqb_spec t t1) as [-> | Hne].
        -- right. split; [reflexivity | exact Hge].
        -- left. cbn. apply filter_In. split; [exact Hin | ].
           apply negb_true_iff, Nat.eqb_neq. exact Hne.
      * intros i Hin. left. cbn. right. exact Hin.
    + split; intros; left; destruct p; destruct fi; cbn; auto.
  - destruct (find (fun q => Nat.eqb (fst q) t1) aws) as [[t0 i0] | ];
      [ | discriminate].
    injection Hstep as <-. unfold resumeProcessing, processingLoop.
    split.
    + intro Hin. left.
      destruct (nth_error processingSteps (S i0)); destruct p; destruct fi;
        exact Hin.
    + intros i Hin. destruct (Nat.eqb_spec t t1) as [-> | Hne].
      * right. reflexivity.
      * left.
        assert (Hkeep : In (t, i)
                          (filter (fun q => negb (Nat.eqb (fst q) t1)) aws)).
        { apply filter_In. split; [exact Hin | ].
          apply negb_true_iff, Nat.eqb_neq. exact Hne. }
        destruct (nth_error processingSteps (S i0)); destruct p; destruct fi;
          cbn; auto.
  - destruct p; cbn in Hstep; try discriminate.
    destruct rs; [ | discriminate]. injection Hstep as <-.
    split; intros; left; destruct fi; cbn; auto.
Qed.

Lemma timers_outlive_events_witness :
  exists w w',
    run [Drop (Some black_png)] init = Some w
    /\ step (Drop (Some red_jpg)) w = Some w'
    /\ In 0%nat (intervals w)
    /\ (In 0%nat (intervals w')
        \/ (Drop (Some red_jpg) = Tick 0%nat /\ 100 <= uploadProgress (ui w))).
Proof.
  eexists. eexists.
  split; [vm_compute; reflexivity | ].
  split; [vm_compute; reflexivity | ].
  split; [vm_compute; left; reflexivity | ].
  eapply (proj1 (timers_outlive_events (Drop (Some red_jpg)) _ _ 0%nat _)).
  vm_compute. left. reflexivity.
  Unshelve. vm_compute; reflexivity.
Defined.

Section OneUpload.

Variables (cs : nat) (sf : option File) (pu : option string)
          (rs : option Results) (v : string) (t : TimerId)
          (ivs : list TimerId) (aws : list (TimerId * nat))
          (nt : TimerId) (urls : list (string * File)).




End OneUpload.

Section OneRun.

Variables (p : Phase) (up : Z) (cs : nat) (sf : option File)
          (pu : option string) (rs : option Results)
          (ivs : list TimerId) (aws : list (TimerId * nat))
          (t nt : TimerId) (urls : list (string * File)) (i : nat).



End OneRun.



(** X7. With the updater of [setUploadProgress] run once for each firing
    (React outside StrictMode's development double call), when the user
    starts one upload at a time (no file is chosen or dropped while an
    interval timer is alive), every phase change of the run is one of the
    view model's: none, upload to processing, processing to result, or back
    to upload by the reset; and at the end at most one timer is pending, an
    interval in the upload phase or a timeout in the processing phase, and
    none in the result phase. *)
Theorem one_upload_at_a_time_view_model (es : list Event) (w : World) :
  disciplined es init = true -> run es init = Some w ->
  Forall (fun c => viewModelChange (fst (fst c)) (snd (fst c)) (snd c) = true)
         (phaseChanges es init)
  /\ (List.length (intervals w) + List.length (awaiting w) <= 1)%nat
  /\ (phase (ui w) = upload -> awaiting w = [])
  /\ (phase (ui w) = processing -> intervals w = [])
  /\ (phase (ui w) = result -> intervals w = [] /\ awaiting w = []).
Proof.
  intros Hdisc Hrun.
  split; [exact (disciplined_changes es init oneTimer_init Hdisc) | ].
  destruct (analysedInv_run es init w analysedInv_init Hdisc Hrun)
    as [[_ Hone] _].
  destruct (phase (ui w)); destruct Hone as [H1 H2].
  - rewrite H1. cbn. repeat split; try discriminate; lia.
  - rewrite H1. cbn. repeat split; try discriminate; lia.
  - rewrite H1, H2. cbn. repeat split; try discriminate; lia.
Qed.

Lemma one_upload_at_a_time_view_model_witness :
  exists w,
    disciplined (session 0%nat black_png ++ ClickReset :: session 5%nat red_jpg)
                init = true
    /\ run (session 0%nat black_png ++ ClickReset :: session 5%nat red_jpg) init
       = Some w
    /\ Forall (fun c => viewModelChange (fst (fst c)) (snd (fst c)) (snd c)
                        = true)
              (phaseChanges
                 (session 0%nat black_png ++ ClickReset :: session 5%nat red_jpg)
                 init).
Proof.
  eexists.
  split; [vm_compute; reflexivity | ].
  split; [vm_compute; reflexivity | ].
  eapply proj1, one_upload_at_a_time_view_model; vm_compute; reflexivity.
Defined.

(** X8. When the user starts one upload at a time, the processing view and
    the result view always show the preview of the selected file: outside
    the upload phase a file of an accepted type is selected, its object URL
    is the preview, and the result view renders that preview with the
    report. *)
Theorem one_upload_at_a_time_preview (es : list Event) (w : World) :
  disciplined es init = true -> run es init = Some w ->
  phase (ui w) <> upload ->
  exists f u,
    selectedFile (ui w) = Some f /\ accepted f = true
    /\ previewUrl (ui w) = Some u /\ In (u, f) (objectUrls w)
    /\ shownPreview (ui w) = Some u
    /\ (phase (ui w) = result ->
        render (ui w) = ResultView (Some u) 5321 610 4872 580).
Proof.
  intros Hdisc Hrun Hph.
  destruct (analysedInv_run es init w analysedInv_init Hdisc Hrun)
    as [_ [[Hup _] | Hsel]]; [contradiction | ].
  assert (Hinv : selectionInv w)
    by exact (run_invariant selectionInv selectionInv_step es init w Hrun
                selectionInv_init).
  unfold selectionInv in Hinv.
  destruct (selectedFile (ui w)) as [f | ] eqn:Hf; [ | contradiction].
  destruct (previewUrl (ui w)) as [u | ] eqn:Hu; [ | contradiction].
  destruct Hinv as [Hacc [Hin Hshown]].
  exists f, u. repeat (split; [auto; fail | ]).
  intro Hres. unfold render. rewrite Hres, Hshown.
  rewrite (proj2 (reportInv_reachable es w Hrun) Hres). reflexivity.
Qed.

Lemma one_upload_at_a_time_preview_witness :
  exists w,
    run (session 0%nat black_png) init = Some w
    /\ render (ui w) = ResultView (Some "blob:0"%string) 5321 610 4872 580
    /\ exists f u,
        selectedFile (ui w) = Some f /\ accepted f = true
        /\ previewUrl (ui w) = Some u /\ In (u, f) (objectUrls w)
        /\ shownPreview (ui w) = Some u
        /\ (phase (ui w) = result ->
            render (ui w) = ResultView (Some u) 5321 610 4872 580).
Proof.
  eexists.
  split; [vm_compute; reflexivity | ].
  split; [vm_compute; reflexivity | ].
  eapply (one_upload_at_a_time_preview (session 0%nat black_png));
    vm_compute; (reflexivity || discriminate).
Defined.

(** X9. On a reachable page state only the reset button undoes an
    analysis: an event that clears the report, clears the selected file, or
    brings the upload view back from another phase is the click on the
    reset button. *)
Theorem only_reset_clears (es : list Event) (w w' : World) (e : Event) :
  run es init = Some w -> step e w = Some w' ->
  (results (ui w) <> None -> results (ui w') = None -> e = ClickReset)
  /\ (selectedFile (ui w) <> None -> selectedFile (ui w') = None ->
      e = ClickReset)
  /\ (phase (ui w) <> upload -> phase (ui w') = upload -> e = ClickReset).
Proof.
  intros Hrun Hstep.
  destruct (progressInv_reachable es w Hrun) as [_ [_ Hmount]].
  clear Hrun.
  destruct w as [[p up cs sf pu rs] fi ivs aws nt urls].
  unfold step in Hstep.
  cbn [ui phase results selectedFile fileInput intervals awaiting] in *.
  destruct e as [files0 | files0 | t | t | ]; [ | | | | auto].
  - destruct fi as [v | ]; [ | discriminate].
    assert (p = upload) by (apply Hmount; discriminate). subst p.
    injection Hstep as <-.
    destruct files0 as [file | ]; cbn; [destruct (accepted file); cbn | ];
      repeat split; intros H1 H2;
      first [contradiction | discriminate H2].
  - destruct p; try discriminate. injection Hstep as <-.
    destruct files0 as [file | ]; cbn; [destruct (accepted file) | ];
      destruct fi; cbn; repeat split; intros H1 H2;
      first [contradiction | discriminate H2].
  - destruct (existsb (Nat.eqb t) ivs); [ | discriminate].
    injection Hstep as <-. unfold intervalCallback. cbn [ui uploadProgress].
    destruct (100 <=? up); destruct p; destruct fi; cbn;
      repeat split; intros H1 H2;
      first [contradiction | discriminate H2].
  - destruct (find (fun q => Nat.eqb (fst q) t) aws) as [[t0 i] | ];
      [ | discriminate].
    injection Hstep as <-. unfold resumeProcessing, processingLoop.
    destruct (nth_error processingSteps (S i)); destruct p; destruct fi; cbn;
      repeat split; intros H1 H2;
      first [contradiction | discriminate H2].
Qed.

Lemma only_reset_clears_witness :
  exists w w',
    run (session 0%nat black_png) init = Some w
    /\ step ClickReset w = Some w'
    /\ results (ui w) <> None /\ results (ui w') = None
    /\ (results (ui w) <> None -> results (ui w') = None ->
        ClickReset = ClickReset).
Proof.
  eexists. eexists.
  split; [vm_compute; reflexivity | ].
  split; [vm_compute; reflexivity | ].
  split; [vm_compute; discriminate | ].
  split; [vm_compute; reflexivity | ].
  eapply proj1, (only_reset_clears (session 0%nat black_png));
    vm_compute; reflexivity.
Defined.
